(** * Literary Muse: the exchange controller of [src/App.tsx]

    A shallow embedding of the [App] component's submission flow
    ([handleSubmit], lines 22-73) together with the pieces of the
    JavaScript runtime it relies on: [String.prototype.trim], truthiness
    of strings, [typeof], property reads, [try]/[catch]/[finally] and
    [await].

    The handler is an asynchronous function.  It is embedded as a term of
    a free monad [Task] whose nodes are the React state setters, the
    console, a [throw] and the one suspension point ([await] on
    [hf.chatCompletion]).  Running a task against a [World] (the three
    [useState] cells plus a log of outside-visible events) stops at the
    suspension point; the continuation is resumed with the way the promise
    settled.

    The element returned by [App] is embedded at the places where it
    depends on the state ([render]), with the textarea's [onKeyDown] and
    [onChange]; a session is a sequence of exchanges from the initial
    state. *)

From Stdlib Require Import List String Ascii NArith QArith Bool Arith Lia.
From ExtLib Require Import Structures.Monad Structures.MonadExc.
Import ListNotations.
Import MonadNotation.
Local Close Scope Q_scope.
Local Open Scope list_scope.
Local Open Scope monad_scope.

Set Implicit Arguments.

(* ===================================================================== *)
(** ** JavaScript strings *)
(* ===================================================================== *)

Module Js.

(** A JavaScript string is a sequence of UTF-16 code units. *)
Definition jsstring : Type := list N.

(** An ASCII literal of the source, as code units. *)
Definition str (s : string) : jsstring :=
  map N_of_ascii (list_ascii_of_string s).

Definition jsstring_eqb (a b : jsstring) : bool :=
  if list_eq_dec N.eq_dec a b then true else false.

(** ECMAScript [WhiteSpace] and [LineTerminator] code points, the set that
    [String.prototype.trim] strips: TAB, VT, FF, ZWNBSP, every space
    separator (category Zs), and LF, CR, LS, PS. *)
Definition is_white_space (c : N) : bool :=
  ((c =? 0x0009) || (c =? 0x000B) || (c =? 0x000C) || (c =? 0xFEFF)
   || (c =? 0x0020) || (c =? 0x00A0) || (c =? 0x1680)
   || ((0x2000 <=? c) && (c <=? 0x200A))
   || (c =? 0x202F) || (c =? 0x205F) || (c =? 0x3000))%N.

Definition is_line_terminator (c : N) : bool :=
  ((c =? 0x000A) || (c =? 0x000D) || (c =? 0x2028) || (c =? 0x2029))%N.

Definition is_trimmable (c : N) : bool :=
  is_white_space c || is_line_terminator c.

Fixpoint trimStart (s : jsstring) : jsstring :=
  match s with
  | [] => []
  | c :: rest => if is_trimmable c then trimStart rest else s
  end.

Definition trimEnd (s : jsstring) : jsstring :=
  rev (trimStart (rev s)).

(** [s.trim()] *)
Definition trim (s : jsstring) : jsstring :=
  trimEnd (trimStart s).

(** [ToBoolean] on a string: only the empty string is falsy. *)
Definition truthy (s : jsstring) : bool :=
  match s with
  | [] => false
  | _ :: _ => true
  end.

(** Runtime values, as far as [handleSubmit] inspects them.  [VObject]
    stands for a plain object or an array and lists the data properties a
    read can see; the first binding of a name is the one read. *)
#[warnings="-register-all"] Inductive JsValue : Type :=
| VUndefined
| VNull
| VBoolean (b : bool)
| VNumber (q : Q)
| VString (s : jsstring)
| VObject (props : list (jsstring * JsValue)).

(** The [typeof] operator. *)
Definition typeof (v : JsValue) : jsstring :=
  match v with
  | VUndefined => str "undefined"
  | VNull => str "object"
  | VBoolean _ => str "boolean"
  | VNumber _ => str "number"
  | VString _ => str "string"
  | VObject _ => str "object"
  end.

Fixpoint own_property (props : list (jsstring * JsValue)) (key : jsstring)
  : JsValue :=
  match props with
  | [] => VUndefined
  | (k, v) :: rest => if jsstring_eqb k key then v else own_property rest key
  end.

(** What can be thrown or be the reason of a rejected promise: an
    instance of [Error] with its [message], or any other value. *)
Inductive Thrown : Type :=
| ErrorInstance (message : jsstring)
| NonError (v : JsValue).

End Js.
Import Js.

(* ===================================================================== *)
(** ** Data of the component *)
(* ===================================================================== *)

(** [interface Message] (lines 5-8). *)
Inductive Role : Type := user | assistant.

Record Message : Type := mkMessage {
  role : Role;
  content : jsstring
}.

(** Line 10. *)
Definition MODEL_ID : jsstring := str "Domver345/lightnovel_ai_proto".

(** The three [useState] cells of [App] (lines 13-15). *)
Record State : Type := mkState {
  messages : list Message;
  input : jsstring;
  isLoading : bool
}.

(** The argument of [hf.chatCompletion] (lines 37-47).  Number literals
    are kept as the decimal they denote. *)
Record ChatMessage : Type := mkChatMessage {
  msg_role : jsstring;
  msg_content : jsstring
}.

Record Parameters : Type := mkParameters {
  max_new_tokens : Q;
  temperature : Q;
  top_p : Q
}.

Record ChatCompletionArgs : Type := mkArgs {
  model : jsstring;
  chat_messages : list ChatMessage;
  parameters : Parameters
}.

(** How the promise returned by [hf.chatCompletion] settles. *)
Inductive Settled : Type :=
| Fulfilled (result : JsValue)
| Rejected (reason : Thrown).

(* ===================================================================== *)
(** ** Tasks: the effects of an async handler *)
(* ===================================================================== *)

Inductive Effect : Type :=
| PreventDefault
| SetInput (v : jsstring)
| SetMessages (updater : list Message -> list Message)
| SetIsLoading (v : bool)
| ConsoleError (label : jsstring) (error : Thrown).

Inductive Task (A : Type) : Type :=
| Ret (a : A)
| Throw (e : Thrown)
| Do (eff : Effect) (k : Task A)
| Await (args : ChatCompletionArgs) (k : Settled -> Task A).

Arguments Throw {A} e.

Fixpoint bind_task {A B : Type} (t : Task A) (f : A -> Task B) : Task B :=
  match t with
  | Ret a => f a
  | Throw e => Throw e
  | Do eff k => Do eff (bind_task k f)
  | Await args k => Await args (fun s => bind_task (k s) f)
  end.

(** [try { body } catch (e) { handler e }] *)
Fixpoint try_catch {A : Type} (body : Task A) (handler : Thrown -> Task A)
  : Task A :=
  match body with
  | Ret a => Ret a
  | Throw e => handler e
  | Do eff k => Do eff (try_catch k handler)
  | Await args k => Await args (fun s => try_catch (k s) handler)
  end.

(** [try { body } finally { finalizer }]: the finalizer runs on both
    exits and the exit of the body is then re-taken. *)
Fixpoint try_finally {A : Type} (body : Task A) (finalizer : Task unit)
  : Task A :=
  match body with
  | Ret a => bind_task finalizer (fun _ => Ret a)
  | Throw e => bind_task finalizer (fun _ => Throw e)
  | Do eff k => Do eff (try_finally k finalizer)
  | Await args k => Await args (fun s => try_finally (k s) finalizer)
  end.

#[global] Instance Monad_Task : Monad Task :=
  {| ret := @Ret; bind := @bind_task |}.

#[global] Instance MonadExc_Task : MonadExc Thrown Task :=
  {| raise := @Throw; catch := @try_catch |}.

Definition perform (eff : Effect) : Task unit := Do eff (Ret tt).

(** [await hf.chatCompletion(args)]: the value of a fulfilled promise, or
    its rejection reason thrown at the [await]. *)
Definition await_chatCompletion (args : ChatCompletionArgs) : Task JsValue :=
  Await args (fun s =>
    match s with
    | Fulfilled result => Ret result
    | Rejected reason => Throw reason
    end).

(* ===================================================================== *)
(** ** Running a task *)
(* ===================================================================== *)

(** What the outside of the component can see of a run, oldest first. *)
Inductive Observation : Type :=
| ObsPreventDefault
| ObsConsoleError (label : jsstring) (error : Thrown)
| ObsChatCompletion (args : ChatCompletionArgs).

Record World : Type := mkWorld {
  state : State;
  log : list Observation
}.

Definition observe (o : Observation) (w : World) : World :=
  mkWorld (state w) (log w ++ [o]).

Definition update (f : State -> State) (w : World) : World :=
  mkWorld (f (state w)) (log w).

(** State setters are queued by React and applied in the order of the
    calls; an updater function receives the value left by the updates
    queued before it.  Applying each one at once gives the same cells. *)
Definition apply_effect (eff : Effect) (w : World) : World :=
  match eff with
  | PreventDefault => observe ObsPreventDefault w
  | SetInput v =>
      update (fun st => mkState (messages st) v (isLoading st)) w
  | SetMessages updater =>
      update (fun st => mkState (updater (messages st)) (input st) (isLoading st)) w
  | SetIsLoading v =>
      update (fun st => mkState (messages st) (input st) v) w
  | ConsoleError label error => observe (ObsConsoleError label error) w
  end.

(** Where a run of an async function stands when control goes back to the
    event loop. *)
Inductive Status (A : Type) : Type :=
| Completed (a : A)
| Uncaught (e : Thrown)
| Suspended (args : ChatCompletionArgs) (k : Settled -> Task A).

Arguments Uncaught {A} e.

(** Run up to the first suspension point.  The network call is issued
    (and logged) when the [await] is reached. *)
Fixpoint run {A : Type} (t : Task A) (w : World) : World * Status A :=
  match t with
  | Ret a => (w, Completed a)
  | Throw e => (w, Uncaught e)
  | Do eff k => run k (apply_effect eff w)
  | Await args k => (observe (ObsChatCompletion args) w, Suspended args k)
  end.

(** Resume a suspended run once its promise has settled. *)
Definition resume {A : Type} (k : Settled -> Task A) (s : Settled) (w : World)
  : World * Status A :=
  run (k s) w.

(** Run to the end against a capability that settles every call. *)
Fixpoint run_with {A : Type} (capability : ChatCompletionArgs -> Settled)
  (t : Task A) (w : World) : World * (Thrown + A) :=
  match t with
  | Ret a => (w, inr a)
  | Throw e => (w, inl e)
  | Do eff k => run_with capability k (apply_effect eff w)
  | Await args k =>
      run_with capability (k (capability args)) (observe (ObsChatCompletion args) w)
  end.

(* ===================================================================== *)
(** ** The component *)
(* ===================================================================== *)

(** The message V8 puts in the [TypeError] of a property read on
    [undefined] or [null]. *)
Definition v8_type_error_message (v : JsValue) (key : jsstring) : jsstring :=
  str "Cannot read properties of "
  ++ match v with VNull => str "null" | _ => str "undefined" end
  ++ str " (reading '" ++ key ++ str "')".

(** The string held by a value that [typeof] reports as a string. *)
Definition string_of (v : JsValue) : jsstring :=
  match v with
  | VString s => s
  | _ => []
  end.

(** Lines 50-53: [const assistantMessage = typeof result.generated_text
    === 'string' ? result.generated_text : 'No response generated'],
    as a function of the value read from [result.generated_text]. *)
Definition assistantMessage (generated_text : JsValue) : jsstring :=
  if jsstring_eqb (typeof generated_text) (str "string")
  then string_of generated_text
  else str "No response generated".

(** Lines 65-67: the template literal of the [catch] block. *)
Definition error_content (error : Thrown) : jsstring :=
  str "Error: " ++
  match error with
  | ErrorInstance message => message
  | NonError _ => str "Failed to get response"
  end.

(** Line 24: [!input.trim() || isLoading]. *)
Definition rejects (input : jsstring) (isLoading : bool) : bool :=
  negb (truthy (trim input)) || isLoading.

(** Lines 37-47. *)
Definition request (userMessage : jsstring) : ChatCompletionArgs :=
  {| model := MODEL_ID;
     chat_messages := [ {| msg_role := str "user"; msg_content := userMessage |} ];
     parameters := {| max_new_tokens := 500; temperature := 0.7; top_p := 0.95 |} |}.

(** Line 143: the textarea's [onChange]. *)
Definition onChange (value : jsstring) (w : World) : World :=
  apply_effect (SetInput value) w.

(* ===================================================================== *)
(** ** Vocabulary of the properties *)
(* ===================================================================== *)

(** The network calls recorded in a log. *)
Fixpoint calls (l : list Observation) : list ChatCompletionArgs :=
  match l with
  | [] => []
  | ObsChatCompletion args :: rest => args :: calls rest
  | _ :: rest => calls rest
  end.

Definition starts_with (prefix s : jsstring) : bool :=
  jsstring_eqb (firstn (List.length prefix) s) prefix.

(** An effect that leaves the entries of the transcript in place. *)
Definition appends (eff : Effect) : Prop :=
  match eff with
  | SetMessages updater => exists l, forall prev, updater prev = prev ++ l
  | _ => True
  end.

(** Tasks all of whose transcript updates are appends. *)
Inductive Appending {A : Type} : Task A -> Prop :=
| Appending_Ret : forall a, Appending (Ret a)
| Appending_Throw : forall e, Appending (Throw e)
| Appending_Do : forall eff k,
    appends eff -> Appending k -> Appending (Do eff k)
| Appending_Await : forall args k,
    (forall s, Appending (k s)) -> Appending (Await args k).

(** [w'] holds the transcript of [w], followed by new entries. *)
Definition extends (w w' : World) : Prop :=
  exists suffix, messages (state w') = messages (state w) ++ suffix.

(** The worlds the three stages of an exchange are expected to leave. *)
Definition sent (prompt : jsstring) (w : World) : World :=
  {| state := {| messages := messages (state w) ++ [mkMessage user prompt];
                 input := [];
                 isLoading := true |};
     log := log w ++ [ObsPreventDefault] |}.

Definition answered (text : jsstring) (w : World) : World :=
  {| state := {| messages := messages (state w) ++ [mkMessage assistant text];
                 input := input (state w);
                 isLoading := false |};
     log := log w |}.

Definition failed (error : Thrown) (w : World) : World :=
  {| state := {| messages := messages (state w)
                               ++ [mkMessage assistant (error_content error)];
                 input := input (state w);
                 isLoading := false |};
     log := log w ++ [ObsConsoleError (str "Error:") error] |}.

(* ===================================================================== *)
(** ** The rendered element and the keyboard *)
(* ===================================================================== *)

(** Lines 13-15: the initial values of the three cells. *)
Definition initial_state : State :=
  {| messages := []; input := str ""; isLoading := false |}.

(** [message.role === 'user'] (lines 96 and 103). *)
Definition role_is_user (message : Message) : bool :=
  match role message with
  | user => true
  | assistant => false
  end.

(** [Array.prototype.map] with the index argument of its callback. *)
Fixpoint map_from {A B : Type} (callback : A -> nat -> B) (index : nat)
  (l : list A) : list B :=
  match l with
  | [] => []
  | a :: rest => callback a index :: map_from callback (S index) rest
  end.

Definition Array_map {A B : Type} (callback : A -> nat -> B) (l : list A)
  : list B :=
  map_from callback 0 l.

(** Lines 93-109: what the element built for one message holds: its
    [key], the [className] of the outer [div], the label in the [span] and
    the text of the [p]. *)
Record Bubble : Type := mkBubble {
  bubble_key : nat;
  className : jsstring;
  label : jsstring;
  text : jsstring
}.

Definition message_bubble (message : Message) (index : nat) : Bubble :=
  {| bubble_key := index;
     className :=
       (if role_is_user message
        then str "bg-amber-100 border-l-4 border-amber-600"
        else str "bg-white border-l-4 border-orange-600")
       ++ str " p-6 rounded-r-lg shadow-md";
     label := if role_is_user message then str "You" else str "Muse";
     text := content message |}.

(** Lines 75-183: the places where the element returned by [App] depends
    on the state; the fixed markup around them is left out.
    - [bubbles]: lines 92-110, [messages.map(...)];
    - [busy_indicator]: line 112, [isLoading && (...)];
    - [textarea_value], [textarea_disabled]: lines 142 and 153;
    - [send_disabled]: line 161, [!input.trim() || isLoading];
    - [empty_hint]: line 171, [messages.length === 0 && (...)]. *)
Record View : Type := mkView {
  bubbles : list Bubble;
  busy_indicator : bool;
  textarea_value : jsstring;
  textarea_disabled : bool;
  send_disabled : bool;
  empty_hint : bool
}.

Definition render (st : State) : View :=
  {| bubbles := Array_map message_bubble (messages st);
     busy_indicator := isLoading st;
     textarea_value := input st;
     textarea_disabled := isLoading st;
     send_disabled := negb (truthy (trim (input st))) || isLoading st;
     empty_hint := Nat.eqb (List.length (messages st)) 0 |}.

(** The fields of the keyboard event that [onKeyDown] reads. *)
Record KeyboardEvent : Type := mkKeyboardEvent {
  key : jsstring;
  shiftKey : bool
}.


(** A transcript made of (user, assistant) pairs. *)
Fixpoint paired (l : list Message) : bool :=
  match l with
  | [] => true
  | question :: answer :: rest =>
      role_is_user question && negb (role_is_user answer) && paired rest
  | [_] => false
  end.

(** Every code unit is white space or a line terminator. *)
Definition blank (s : jsstring) : bool := forallb is_trimmable s.

Definition enter_key : KeyboardEvent := {| key := str "Enter"; shiftKey := false |}.

Definition shift_enter_key : KeyboardEvent := {| key := str "Enter"; shiftKey := true |}.

(* ===================================================================== *)
(** ** Sample sessions *)
(* ===================================================================== *)

Definition sample_token : option jsstring := Some (str "hf_sample").

(** An empty session with a padded prompt typed in. *)
Definition hello_state : State :=
  {| messages := []; input := str "  Hello "; isLoading := false |}.

(** A session with one earlier exchange and a new prompt typed in. *)
Definition story_state : State :=
  {| messages := [mkMessage user (str "Hi"); mkMessage assistant (str "Welcome")];
     input := str "Tell me a story";
     isLoading := false |}.

(** Only white space typed in: a space, a no-break space, a line feed. *)
Definition blank_state : State :=
  {| messages := [mkMessage user (str "Hi")];
     input := [0x20; 0xA0; 0x0A]%N;
     isLoading := false |}.

(** A prompt typed in while a request is in flight. *)
Definition pending_state : State :=
  {| messages := [mkMessage user (str "Hi")];
     input := str "again";
     isLoading := true |}.

Definition story_capability (_ : ChatCompletionArgs) : Settled :=
  Fulfilled (VObject [(str "generated_text", VString (str "Once upon a time..."))]).

(** A payload in the shape of a chat completion: no [generated_text]. *)
Definition choices_capability (_ : ChatCompletionArgs) : Settled :=
  Fulfilled (VObject [(str "choices", VObject [])]).

Definition unavailable_capability (_ : ChatCompletionArgs) : Settled :=
  Rejected (ErrorInstance (str "Service unavailable")).

(** A capability whose promise is fulfilled with [null]. *)
Definition null_capability (_ : ChatCompletionArgs) : Settled :=
  Fulfilled VNull.

(** A capability that rejects with a bare string. *)
Definition string_capability (_ : ChatCompletionArgs) : Settled :=
  Rejected (NonError (VString (str "timeout"))).

(** Four exchanges: a blank value, a prompt that is answered, another
    blank value, a prompt whose call is rejected. *)
Definition sample_steps : list (jsstring * (ChatCompletionArgs -> Settled)) :=
  [ ([0x20]%N, story_capability);
    (str "Tell me a story", story_capability);
    (str "", unavailable_capability);
    (str " again ", unavailable_capability) ].

Section App.

(** The text of the engine's [TypeError] for a property read on [undefined]
    or [null]; it differs between engines. *)
Variable typeErrorMessage : JsValue -> jsstring -> jsstring.

(** Line 17: [import.meta.env.VITE_HUGGINGFACE_API_TOKEN], a string or
    [undefined] ([None]). *)
Variable apiToken : option jsstring.

(** [!apiToken] *)
Definition token_falsy : bool :=
  match apiToken with
  | None => true
  | Some t => negb (truthy t)
  end.

(** [apiToken === 'your_token_here'] *)
Definition token_is (literal : jsstring) : bool :=
  match apiToken with
  | None => false
  | Some t => jsstring_eqb t literal
  end.

(** Line 32: [!apiToken || apiToken === 'your_token_here']. *)
Definition credential_missing : bool :=
  token_falsy || token_is (str "your_token_here").

(** [result.generated_text]: a [TypeError] on [undefined] and [null], the
    property of an object, and [undefined] on the other primitives, whose
    prototypes have no property of that name. *)
Definition read_generated_text (result : JsValue) : Task JsValue :=
  match result with
  | VUndefined | VNull =>
      raise (ErrorInstance (typeErrorMessage result (str "generated_text")))
  | VObject props => ret (own_property props (str "generated_text"))
  | VBoolean _ | VNumber _ | VString _ => ret VUndefined
  end.

(** Lines 22-73.  [input] and [isLoading] are the values of the state
    cells captured by the render that created the handler. *)
Definition handleSubmit (input : jsstring) (isLoading : bool) : Task unit :=
  perform PreventDefault ;;
  if rejects input isLoading then ret tt
  else
    let userMessage := trim input in
    perform (SetInput (str "")) ;;
    perform (SetMessages (fun prev => prev ++ [mkMessage user userMessage])) ;;
    perform (SetIsLoading true) ;;
    try_finally
      (catch
         ((if credential_missing
           then raise (ErrorInstance
                  (str "Please set your Hugging Face API token in the .env file"))
           else ret tt) ;;
          result <- await_chatCompletion (request userMessage) ;;
          generated_text <- read_generated_text result ;;
          perform (SetMessages (fun prev =>
            prev ++ [mkMessage assistant (assistantMessage generated_text)])))
         (fun error =>
            perform (ConsoleError (str "Error:") error) ;;
            perform (SetMessages (fun prev =>
              prev ++ [mkMessage assistant (error_content error)]))))
      (perform (SetIsLoading false)).

(** The handler as the form invokes it on the rendered state. *)
Definition submit (st : State) : Task unit :=
  handleSubmit (input st) (isLoading st).

(** Lines 144-149, the textarea's [onKeyDown].  The promise of
    [handleSubmit] is not awaited; nothing follows the call, so the
    effects are those of the sequence. *)
Definition onKeyDown (e : KeyboardEvent) (input : jsstring) (isLoading : bool)
  : Task unit :=
  if jsstring_eqb (key e) (str "Enter") && negb (shiftKey e)
  then perform PreventDefault ;; handleSubmit input isLoading
  else ret tt.

(** One exchange of a session: the user types [value], the form is
    submitted on the state rendered then, and the call, if one is made,
    settles as [capability] says. *)
Definition exchange (capability : ChatCompletionArgs -> Settled)
  (value : jsstring) (w : World) : World :=
  let typed := onChange value w in
  fst (run_with capability (submit (state typed)) typed).

Fixpoint session (steps : list (jsstring * (ChatCompletionArgs -> Settled)))
  (w : World) : World :=
  match steps with
  | [] => w
  | (value, capability) :: rest => session rest (exchange capability value w)
  end.

(* ===================================================================== *)
(** ** The JavaScript tests of the handler *)
(* ===================================================================== *)

Lemma jsstring_eqb_eq (a b : jsstring) : jsstring_eqb a b = true <-> a = b.
Proof.
  unfold jsstring_eqb. destruct (list_eq_dec N.eq_dec a b); split; congruence.
Qed.

Lemma jsstring_eqb_refl (a : jsstring) : jsstring_eqb a a = true.
Proof. now apply jsstring_eqb_eq. Qed.

Lemma truthy_nonempty (s : jsstring) : truthy s = true <-> s <> [].
Proof. destruct s; simpl; split; congruence. Qed.

Lemma rejects_false_iff (i : jsstring) (l : bool) :
  rejects i l = false <-> trim i <> [] /\ l = false.
Proof.
  unfold rejects. rewrite orb_false_iff, negb_false_iff, truthy_nonempty.
  reflexivity.
Qed.

Lemma rejects_true_iff (i : jsstring) (l : bool) :
  rejects i l = true <-> trim i = [] \/ l = true.
Proof.
  unfold rejects. rewrite orb_true_iff, negb_true_iff.
  destruct (trim i); simpl; intuition congruence.
Qed.

Lemma credential_missing_true_iff :
  credential_missing = true <->
  apiToken = None \/ apiToken = Some [] \/ apiToken = Some (str "your_token_here").
Proof.
  unfold credential_missing, token_falsy, token_is.
  destruct apiToken as [t|]; [|intuition].
  rewrite orb_true_iff, negb_true_iff, jsstring_eqb_eq.
  destruct t; simpl; intuition congruence.
Qed.

Lemma typeof_string_iff (v : JsValue) :
  jsstring_eqb (typeof v) (str "string") = true <-> exists g, v = VString g.
Proof.
  destruct v; simpl; split; intros H; try discriminate;
    try (destruct H; discriminate); eauto.
Qed.

Lemma assistantMessage_string (g : jsstring) : assistantMessage (VString g) = g.
Proof. reflexivity. Qed.

Lemma assistantMessage_other (v : JsValue) :
  (forall g, v <> VString g) -> assistantMessage v = str "No response generated".
Proof.
  intros H. unfold assistantMessage.
  destruct (jsstring_eqb (typeof v) (str "string")) eqn:E; [|reflexivity].
  apply typeof_string_iff in E. destruct E as [g ->]. now elim (H g).
Qed.

(* ===================================================================== *)
(** ** Runs *)
(* ===================================================================== *)

(** A complete run is a run to the suspension point followed by the run
    of the continuation on the settlement the capability gives. *)
Lemma run_with_run {A : Type} (capability : ChatCompletionArgs -> Settled)
  (t : Task A) :
  forall w,
    run_with capability t w =
    match run t w with
    | (w1, Completed a) => (w1, inr a)
    | (w1, Uncaught e) => (w1, inl e)
    | (w1, Suspended args k) => run_with capability (k (capability args)) w1
    end.
Proof.
  induction t as [a | e | eff k IH | args k _]; intros w; simpl.
  - reflexivity.
  - reflexivity.
  - apply IH.
  - reflexivity.
Qed.

Lemma run_with_completed {A : Type} (capability : ChatCompletionArgs -> Settled)
  (t : Task A) (w w1 : World) (a : A) :
  run t w = (w1, Completed a) -> run_with capability t w = (w1, inr a).
Proof. intros H. rewrite run_with_run, H. reflexivity. Qed.

Lemma run_with_suspended {A : Type} (capability : ChatCompletionArgs -> Settled)
  (t : Task A) (w w1 w2 : World) args k (a : A) :
  run t w = (w1, Suspended args k) ->
  resume k (capability args) w1 = (w2, Completed a) ->
  run_with capability t w = (w2, inr a).
Proof.
  intros H1 H2. rewrite run_with_run, H1.
  now apply run_with_completed.
Qed.

(** The three ways through [handleSubmit]. *)

Lemma run_handleSubmit_rejected (i : jsstring) (l : bool) (w : World) :
  rejects i l = true ->
  run (handleSubmit i l) w = (observe ObsPreventDefault w, Completed tt).
Proof. intros H. unfold handleSubmit. rewrite H. reflexivity. Qed.

Lemma run_handleSubmit_unconfigured (i : jsstring) (l : bool) (w : World) :
  rejects i l = false ->
  credential_missing = true ->
  run (handleSubmit i l) w =
  (failed (ErrorInstance
             (str "Please set your Hugging Face API token in the .env file"))
          (sent (trim i) w),
   Completed tt).
Proof.
  intros H Hc. unfold handleSubmit. rewrite H. cbn. rewrite Hc. reflexivity.
Qed.

Lemma run_handleSubmit_suspends (i : jsstring) (l : bool) (w : World) :
  rejects i l = false ->
  credential_missing = false ->
  exists k,
    run (handleSubmit i l) w =
      (observe (ObsChatCompletion (request (trim i))) (sent (trim i) w),
       Suspended (request (trim i)) k)
    /\ (forall e w', resume k (Rejected e) w' = (failed e w', Completed tt))
    /\ (forall r v w',
          read_generated_text r = Ret v ->
          resume k (Fulfilled r) w' = (answered (assistantMessage v) w', Completed tt))
    /\ (forall r w',
          r = VUndefined \/ r = VNull ->
          resume k (Fulfilled r) w' =
          (failed (ErrorInstance (typeErrorMessage r (str "generated_text"))) w',
           Completed tt)).
Proof.
  intros H Hc. unfold handleSubmit. rewrite H. cbn. rewrite Hc. cbn.
  eexists. split; [reflexivity|]. unfold resume.
  split; [|split].
  - intros e w'. reflexivity.
  - intros r v w' Hr. cbn. destruct r; cbn in Hr; try discriminate;
      injection Hr as <-; reflexivity.
  - intros r w' [-> | ->]; reflexivity.
Qed.

(** Whatever the settlement, the continuation of an accepted submission
    ends normally, with one more assistant entry and [isLoading] reset. *)
Lemma run_handleSubmit_settles (i : jsstring) (l : bool) (w : World) :
  rejects i l = false ->
  credential_missing = false ->
  exists k,
    run (handleSubmit i l) w =
      (observe (ObsChatCompletion (request (trim i))) (sent (trim i) w),
       Suspended (request (trim i)) k)
    /\ forall s w', exists reply extra,
         calls extra = [] /\
         resume k s w' =
         ({| state := {| messages := messages (state w')
                                       ++ [mkMessage assistant reply];
                         input := input (state w');
                         isLoading := false |};
             log := log w' ++ extra |},
          Completed tt).
Proof.
  intros H Hc.
  destruct (run_handleSubmit_suspends i l w H Hc) as (k & Hrun & Hrej & Hful & Hnull).
  exists k. split; [exact Hrun|].
  intros [r | e] w'.
  - destruct r as [ | | b | q | g | props].
    1, 2: do 2 eexists; rewrite Hnull by auto;
          (split; [|reflexivity]); reflexivity.
    all: eexists; exists []; erewrite Hful by reflexivity;
         unfold answered; rewrite app_nil_r; split; reflexivity.
  - eexists. exists [ObsConsoleError (str "Error:") e].
    rewrite Hrej. split; reflexivity.
Qed.

Lemma calls_app (l1 l2 : list Observation) :
  calls (l1 ++ l2) = calls l1 ++ calls l2.
Proof.
  induction l1 as [| o l1 IH]; simpl; [reflexivity|].
  destruct o; simpl; rewrite IH; reflexivity.
Qed.

(* ===================================================================== *)
(** ** The transcript only grows *)
(* ===================================================================== *)

Lemma extends_refl (w : World) : extends w w.
Proof. exists []. now rewrite app_nil_r. Qed.

Lemma extends_trans (w1 w2 w3 : World) :
  extends w1 w2 -> extends w2 w3 -> extends w1 w3.
Proof.
  intros [s1 H1] [s2 H2]. exists (s1 ++ s2).
  now rewrite H2, H1, app_assoc.
Qed.

Lemma observe_extends (o : Observation) (w : World) : extends w (observe o w).
Proof. exists []. simpl. now rewrite app_nil_r. Qed.

Lemma apply_effect_extends (eff : Effect) (w : World) :
  appends eff -> extends w (apply_effect eff w).
Proof.
  destruct eff as [ | v | updater | v | label error]; simpl; intros H.
  3: destruct H as [l Hl]; exists l; simpl; apply Hl.
  all: exists []; simpl; now rewrite app_nil_r.
Qed.

Lemma Appending_bind {A B : Type} (t : Task A) (f : A -> Task B) :
  Appending t -> (forall a, Appending (f a)) -> Appending (bind_task t f).
Proof.
  intros Ht Hf. induction Ht as [a | e | eff k He _ IH | args k _ IH]; simpl.
  - apply Hf.
  - constructor.
  - constructor; assumption.
  - constructor. exact IH.
Qed.

Lemma Appending_try_catch {A : Type} (body : Task A) (handler : Thrown -> Task A) :
  Appending body -> (forall e, Appending (handler e)) ->
  Appending (try_catch body handler).
Proof.
  intros Hb Hh. induction Hb as [a | e | eff k He _ IH | args k _ IH]; simpl.
  - constructor.
  - apply Hh.
  - constructor; assumption.
  - constructor. exact IH.
Qed.

Lemma Appending_try_finally {A : Type} (body : Task A) (finalizer : Task unit) :
  Appending body -> Appending finalizer ->
  Appending (try_finally body finalizer).
Proof.
  intros Hb Hf. induction Hb as [a | e | eff k He _ IH | args k _ IH]; simpl.
  - apply Appending_bind; [assumption | constructor].
  - apply Appending_bind; [assumption | constructor].
  - constructor; assumption.
  - constructor. exact IH.
Qed.

Lemma Appending_perform (eff : Effect) : appends eff -> Appending (perform eff).
Proof. intros H. constructor; [assumption | constructor]. Qed.

Lemma appends_push (m : Message) : appends (SetMessages (fun prev => prev ++ [m])).
Proof. exists [m]. reflexivity. Qed.

Create HintDb appending.
#[local] Hint Resolve Appending_perform appends_push : appending.
#[local] Hint Constructors Appending : appending.
#[local] Hint Extern 1 (appends _) => exact I : appending.

Lemma Appending_handleSubmit (i : jsstring) (l : bool) :
  Appending (handleSubmit i l).
Proof.
  unfold handleSubmit. cbn [bind Monad_Task catch MonadExc_Task ret raise].
  apply Appending_bind; [auto with appending|]. intros _.
  destruct (rejects i l); [constructor|].
  repeat (apply Appending_bind; [auto with appending|]; intros _).
  apply Appending_try_finally; [|auto with appending].
  apply Appending_try_catch.
  - apply Appending_bind.
    + destruct credential_missing; constructor.
    + intros _. apply Appending_bind.
      * constructor. intros [r | e]; constructor.
      * intros r. apply Appending_bind; [|auto with appending].
        destruct r; constructor.
  - intros e. apply Appending_bind; auto with appending.
Qed.

Lemma run_extends {A : Type} (t : Task A) :
  Appending t ->
  forall w,
    extends w (fst (run t w))
    /\ forall args k, snd (run t w) = Suspended args k ->
                      forall s, Appending (k s).
Proof.
  induction 1 as [a | e | eff k He _ IH | args k Hk _]; intros w; simpl.
  - split; [apply extends_refl | discriminate].
  - split; [apply extends_refl | discriminate].
  - destruct (IH (apply_effect eff w)) as [Hext Hcont]. split.
    + eapply extends_trans; [apply apply_effect_extends, He | exact Hext].
    + exact Hcont.
  - split.
    + apply observe_extends.
    + intros args' k' Heq. injection Heq as _ <-. exact Hk.
Qed.

Lemma run_with_extends {A : Type} (capability : ChatCompletionArgs -> Settled)
  (t : Task A) :
  Appending t -> forall w, extends w (fst (run_with capability t w)).
Proof.
  induction 1 as [a | e | eff k He _ IH | args k _ IH]; intros w; simpl.
  - apply extends_refl.
  - apply extends_refl.
  - eapply extends_trans; [apply apply_effect_extends, He | apply IH].
  - eapply extends_trans; [apply observe_extends | apply IH].
Qed.

(* ===================================================================== *)
(** ** Properties of the exchange *)
(* ===================================================================== *)

(** C1.  A prompt that is non-empty after trimming, submitted while idle,
    adds exactly one user entry holding the trimmed prompt and exactly one
    assistant entry: every complete run, whatever the capability does,
    ends with the transcript extended by these two entries.  When the call
    is issued the user entry is already in the transcript and the
    assistant entry is not; it is added when the call settles, one entry
    for every way of settling. *)
Theorem submit_appends_user_then_one_assistant (st : State) (lg : list Observation) :
  trim (input st) <> [] ->
  isLoading st = false ->
  let w := mkWorld st lg in
  let entry := mkMessage user (trim (input st)) in
  (forall capability, exists reply w2,
      run_with capability (submit st) w = (w2, inr tt)
      /\ messages (state w2) = messages st ++ [entry; mkMessage assistant reply])
  /\ (credential_missing = false ->
      exists w1 k,
        run (submit st) w = (w1, Suspended (request (trim (input st))) k)
        /\ messages (state w1) = messages st ++ [entry]
        /\ forall s, exists reply w2,
             resume k s w1 = (w2, Completed tt)
             /\ messages (state w2)
                = messages st ++ [entry; mkMessage assistant reply]).
Proof.
  intros Hp Hl w entry.
  assert (Hacc : rejects (input st) (isLoading st) = false)
    by (apply rejects_false_iff; auto).
  assert (Hsusp : credential_missing = false ->
      exists w1 k,
        run (submit st) w = (w1, Suspended (request (trim (input st))) k)
        /\ messages (state w1) = messages st ++ [entry]
        /\ forall s, exists reply w2,
             resume k s w1 = (w2, Completed tt)
             /\ messages (state w2)
                = messages st ++ [entry; mkMessage assistant reply]).
  { intros Hc.
    destruct (run_handleSubmit_settles (input st) (isLoading st) w Hacc Hc)
      as (k & Hrun & Hk).
    eexists. exists k. split; [exact Hrun|]. split; [reflexivity|].
    intros s. destruct (Hk s (observe (ObsChatCompletion (request (trim (input st))))
                                (sent (trim (input st)) w))) as (reply & extra & Hextra & Hres).
    exists reply. eexists. split; [exact Hres|].
    simpl. now rewrite <- app_assoc. }
  split; [|exact Hsusp].
  intros capability. destruct credential_missing eqn:Hc.
  - eexists. eexists. split.
    + apply run_with_completed.
      apply (run_handleSubmit_unconfigured (input st) (isLoading st) w Hacc Hc).
    + simpl. now rewrite <- app_assoc.
  - destruct (Hsusp eq_refl) as (w1 & k & Hrun & _ & Hk).
    destruct (Hk (capability (request (trim (input st))))) as (reply & w2 & Hres & Hm).
    exists reply, w2. split; [|exact Hm].
    eapply run_with_suspended; eassumption.
Qed.

(** C2.  After the settlement of an accepted submission (a reply, a
    missing credential, a rejected call or any other thrown value) the
    handler has ended normally and [isLoading] is false, so a later
    non-blank prompt passes the guard again.  While the call is in flight
    [isLoading] is true, and every settlement resets it. *)
Theorem settlement_returns_to_idle (st : State) (lg : list Observation) :
  trim (input st) <> [] ->
  isLoading st = false ->
  let w := mkWorld st lg in
  (forall capability, exists w2,
      run_with capability (submit st) w = (w2, inr tt)
      /\ isLoading (state w2) = false
      /\ forall prompt, trim prompt <> [] ->
           let w3 := onChange prompt w2 in
           rejects (input (state w3)) (isLoading (state w3)) = false)
  /\ (forall w1 args k,
        run (submit st) w = (w1, Suspended args k) ->
        isLoading (state w1) = true
        /\ forall s w', exists w2,
             resume k s w' = (w2, Completed tt)
             /\ isLoading (state w2) = false).
Proof.
  intros Hp Hl w.
  assert (Hacc : rejects (input st) (isLoading st) = false)
    by (apply rejects_false_iff; auto).
  split.
  - intros capability. destruct credential_missing eqn:Hc.
    + eexists. split; [|split].
      * apply run_with_completed.
        apply (run_handleSubmit_unconfigured (input st) (isLoading st) w Hacc Hc).
      * reflexivity.
      * intros prompt Hprompt. simpl. apply rejects_false_iff. auto.
    + destruct (run_handleSubmit_settles (input st) (isLoading st) w Hacc Hc)
        as (k & Hrun & Hk).
      destruct (Hk (capability (request (trim (input st))))
                  (observe (ObsChatCompletion (request (trim (input st))))
                     (sent (trim (input st)) w))) as (reply & extra & Hextra & Hres).
      eexists. split; [|split].
      * eapply run_with_suspended; eassumption.
      * reflexivity.
      * intros prompt Hprompt. simpl. apply rejects_false_iff. auto.
  - intros w1 args k Hrun. unfold submit in Hrun.
    destruct credential_missing eqn:Hc.
    + rewrite (run_handleSubmit_unconfigured (input st) (isLoading st) w Hacc Hc)
        in Hrun. discriminate.
    + destruct (run_handleSubmit_settles (input st) (isLoading st) w Hacc Hc)
        as (k' & Hrun' & Hk).
      rewrite Hrun' in Hrun. injection Hrun as <- _ <-.
      split; [reflexivity|].
      intros s w'. destruct (Hk s w') as (reply & extra & Hextra & Hres).
      eexists. split; [exact Hres | reflexivity].
Qed.

(** C3.  When the input trims to the empty string, or while a request is
    pending, [handleSubmit] changes none of the three state cells and
    issues no call: it only cancels the form event. *)
Theorem submit_rejected_is_noop (st : State) (lg : list Observation) :
  trim (input st) = [] \/ isLoading st = true ->
  run (submit st) (mkWorld st lg)
  = (mkWorld st (lg ++ [ObsPreventDefault]), Completed tt)
  /\ forall capability,
       run_with capability (submit st) (mkWorld st lg)
       = (mkWorld st (lg ++ [ObsPreventDefault]), inr tt).
Proof.
  intros H. apply rejects_true_iff in H.
  assert (Hrun := run_handleSubmit_rejected (input st) (isLoading st)
                    (mkWorld st lg) H).
  split; [exact Hrun|].
  intros capability. now apply run_with_completed.
Qed.

(** C4.  With the credential absent or still the placeholder, an accepted
    submission ends without suspending: the capability is never called,
    the transcript receives the user entry and then the assistant entry
    "Error: Please set your Hugging Face API token in the .env file", and
    [isLoading] ends false. *)
Theorem missing_credential_reports_without_call (st : State) (lg : list Observation) :
  trim (input st) <> [] ->
  isLoading st = false ->
  apiToken = None \/ apiToken = Some (str "your_token_here") ->
  let final :=
    {| state :=
         {| messages :=
              messages st
              ++ [mkMessage user (trim (input st));
                  mkMessage assistant
                    (str "Error: Please set your Hugging Face API token in the .env file")];
            input := [];
            isLoading := false |};
       log :=
         lg ++ [ObsPreventDefault;
                ObsConsoleError (str "Error:")
                  (ErrorInstance
                     (str "Please set your Hugging Face API token in the .env file"))] |} in
  run (submit st) (mkWorld st lg) = (final, Completed tt)
  /\ (forall capability,
        run_with capability (submit st) (mkWorld st lg) = (final, inr tt))
  /\ calls (log final) = calls lg.
Proof.
  intros Hp Hl Htok final.
  assert (Hacc : rejects (input st) (isLoading st) = false)
    by (apply rejects_false_iff; auto).
  assert (Hc : credential_missing = true)
    by (apply credential_missing_true_iff; tauto).
  assert (Hrun : run (submit st) (mkWorld st lg) = (final, Completed tt)).
  { unfold submit.
    rewrite (run_handleSubmit_unconfigured (input st) (isLoading st) _ Hacc Hc).
    unfold final, failed, sent. simpl. now rewrite <- !app_assoc. }
  split; [exact Hrun|]. split.
  - intros capability. now apply run_with_completed.
  - unfold final. simpl. rewrite calls_app. simpl. apply app_nil_r.
Qed.

(** C5.  When the call of an accepted submission is rejected with an
    [Error] whose message is [m], the handler ends normally, the transcript
    receives the user entry and one assistant entry "Error: " followed by
    [m], and [isLoading] is false again, so the next non-blank prompt is
    accepted. *)
Theorem rejected_call_reports_message
  (st : State) (lg : list Observation)
  (capability : ChatCompletionArgs -> Settled) (m : jsstring) :
  trim (input st) <> [] ->
  isLoading st = false ->
  credential_missing = false ->
  capability (request (trim (input st))) = Rejected (ErrorInstance m) ->
  exists w2,
    run_with capability (submit st) (mkWorld st lg) = (w2, inr tt)
    /\ messages (state w2)
       = messages st ++ [mkMessage user (trim (input st));
                         mkMessage assistant (str "Error: " ++ m)]
    /\ isLoading (state w2) = false
    /\ forall prompt, trim prompt <> [] ->
         let w3 := onChange prompt w2 in
         rejects (input (state w3)) (isLoading (state w3)) = false.
Proof.
  intros Hp Hl Hc Hcap.
  assert (Hacc : rejects (input st) (isLoading st) = false)
    by (apply rejects_false_iff; auto).
  destruct (run_handleSubmit_suspends (input st) (isLoading st) (mkWorld st lg) Hacc Hc)
    as (k & Hrun & Hrej & _ & _).
  eexists. split; [|split; [|split]].
  - eapply run_with_suspended; [exact Hrun|]. rewrite Hcap. apply Hrej.
  - simpl. now rewrite <- app_assoc.
  - reflexivity.
  - intros prompt Hprompt. simpl. apply rejects_false_iff. auto.
Qed.

(** C6, amended.  When the call of an accepted submission is fulfilled
    with a payload whose [generated_text] is not a string (the property is
    missing, or holds another kind of value), then
    - if the payload is neither [undefined] nor [null], the assistant entry
      added is exactly "No response generated"; that entry does not begin
      with "Error: " and nothing is reported to the console;
    - if the payload is [undefined] or [null], the read of
      [generated_text] throws: the [catch] block reports the engine's
      [TypeError] to the console and the assistant entry added is
      "Error: " followed by its message.
    In both cases the handler ends normally with [isLoading] false. *)
Theorem unusable_generated_text_gives_placeholder
  (st : State) (lg : list Observation)
  (capability : ChatCompletionArgs -> Settled) (payload : JsValue) :
  trim (input st) <> [] ->
  isLoading st = false ->
  credential_missing = false ->
  capability (request (trim (input st))) = Fulfilled payload ->
  (forall g, read_generated_text payload <> Ret (VString g)) ->
  (payload <> VUndefined -> payload <> VNull ->
   exists w2,
     run_with capability (submit st) (mkWorld st lg) = (w2, inr tt)
     /\ messages (state w2)
        = messages st ++ [mkMessage user (trim (input st));
                          mkMessage assistant (str "No response generated")]
     /\ starts_with (str "Error: ") (str "No response generated") = false
     /\ log w2 = lg ++ [ObsPreventDefault;
                        ObsChatCompletion (request (trim (input st)))]
     /\ isLoading (state w2) = false)
  /\ (payload = VUndefined \/ payload = VNull ->
      exists w2,
        run_with capability (submit st) (mkWorld st lg) = (w2, inr tt)
        /\ messages (state w2)
           = messages st
             ++ [mkMessage user (trim (input st));
                 mkMessage assistant
                   (str "Error: " ++ typeErrorMessage payload (str "generated_text"))]
        /\ starts_with (str "Error: ")
             (str "Error: " ++ typeErrorMessage payload (str "generated_text"))
           = true
        /\ log w2 = lg ++ [ObsPreventDefault;
                           ObsChatCompletion (request (trim (input st)));
                           ObsConsoleError (str "Error:")
                             (ErrorInstance
                                (typeErrorMessage payload (str "generated_text")))]
        /\ isLoading (state w2) = false).
Proof.
  intros Hp Hl Hc Hcap Hnot.
  assert (Hacc : rejects (input st) (isLoading st) = false)
    by (apply rejects_false_iff; auto).
  destruct (run_handleSubmit_suspends (input st) (isLoading st) (mkWorld st lg) Hacc Hc)
    as (k & Hrun & _ & Hful & Hnull).
  split.
  - intros Hu Hn.
    assert (Hread : exists v, read_generated_text payload = Ret v
                              /\ forall g, v <> VString g).
    { destruct payload as [ | | b | q | s | props]; try contradiction;
        eexists; (split; [reflexivity|]); intros g Hg;
        try discriminate Hg.
      apply (Hnot g). simpl. now rewrite Hg. }
    destruct Hread as (v & Hread & Hv).
    eexists. split; [|split; [|split; [|split]]].
    + eapply run_with_suspended; [exact Hrun|]. rewrite Hcap.
      apply Hful. exact Hread.
    + simpl. rewrite (assistantMessage_other Hv). now rewrite <- app_assoc.
    + reflexivity.
    + simpl. now rewrite <- app_assoc.
    + reflexivity.
  - intros Hnullish.
    eexists. split; [|split; [|split; [|split]]].
    + eapply run_with_suspended; [exact Hrun|]. rewrite Hcap.
      apply Hnull. exact Hnullish.
    + simpl. now rewrite <- app_assoc.
    + reflexivity.
    + simpl. now rewrite <- !app_assoc.
    + reflexivity.
Qed.

(** C7.  When the call of an accepted submission is fulfilled with a
    payload whose [generated_text] is the string [g], the assistant entry
    added has content exactly [g]. *)
Theorem generated_text_is_the_reply
  (st : State) (lg : list Observation)
  (capability : ChatCompletionArgs -> Settled) (payload : JsValue) (g : jsstring) :
  trim (input st) <> [] ->
  isLoading st = false ->
  credential_missing = false ->
  capability (request (trim (input st))) = Fulfilled payload ->
  read_generated_text payload = Ret (VString g) ->
  exists w2,
    run_with capability (submit st) (mkWorld st lg) = (w2, inr tt)
    /\ messages (state w2)
       = messages st ++ [mkMessage user (trim (input st));
                         mkMessage assistant g]
    /\ isLoading (state w2) = false.
Proof.
  intros Hp Hl Hc Hcap Hread.
  assert (Hacc : rejects (input st) (isLoading st) = false)
    by (apply rejects_false_iff; auto).
  destruct (run_handleSubmit_suspends (input st) (isLoading st) (mkWorld st lg) Hacc Hc)
    as (k & Hrun & _ & Hful & _).
  eexists. split; [|split].
  - eapply run_with_suspended; [exact Hrun|]. rewrite Hcap.
    apply Hful. exact Hread.
  - simpl. rewrite assistantMessage_string. now rewrite <- app_assoc.
  - reflexivity.
Qed.

(** C8.  The calls an accepted submission adds to the log are: none when
    the credential is missing, and otherwise exactly one, for model
    [MODEL_ID], with the single message of role "user" holding the trimmed
    prompt and the parameters max_new_tokens 500, temperature 0.7 and
    top_p 0.95.  The transcript held before the submission does not occur
    in the request. *)
Theorem request_is_single_turn_with_fixed_parameters
  (st : State) (lg : list Observation)
  (capability : ChatCompletionArgs -> Settled) :
  trim (input st) <> [] ->
  isLoading st = false ->
  calls (log (fst (run_with capability (submit st) (mkWorld st lg))))
  = calls lg
    ++ (if credential_missing then []
        else [ {| model := MODEL_ID;
                  chat_messages :=
                    [ {| msg_role := str "user";
                         msg_content := trim (input st) |} ];
                  parameters := {| max_new_tokens := 500;
                                   temperature := 7 # 10;
                                   top_p := 95 # 100 |} |} ]).
Proof.
  intros Hp Hl.
  assert (Hacc : rejects (input st) (isLoading st) = false)
    by (apply rejects_false_iff; auto).
  destruct credential_missing eqn:Hc.
  - unfold submit.
    rewrite (run_with_completed capability _ _
               (run_handleSubmit_unconfigured (input st) (isLoading st) _ Hacc Hc)).
    simpl. rewrite !calls_app. simpl. now rewrite !app_nil_r.
  - destruct (run_handleSubmit_settles (input st) (isLoading st) (mkWorld st lg) Hacc Hc)
      as (k & Hrun & Hk).
    destruct (Hk (capability (request (trim (input st))))
                (observe (ObsChatCompletion (request (trim (input st))))
                   (sent (trim (input st)) (mkWorld st lg))))
      as (reply & extra & Hextra & Hres).
    unfold submit. rewrite (run_with_suspended capability _ _ Hrun Hres).
    simpl. rewrite !calls_app. simpl.
    rewrite Hextra, !app_nil_r. reflexivity.
Qed.

(** C9.  The transcript is append-only.  For every call of the handler,
    accepted or not, and every behaviour of the capability, the transcript
    after a complete run is the transcript before it followed by new
    entries; the same holds at the point where the call is issued, for
    the step taken when the call settles (on whatever the transcript is
    then), and typing into the textarea leaves the transcript as it is. *)
Theorem transcript_append_only (st : State) (lg : list Observation) :
  let w := mkWorld st lg in
  (forall capability, exists suffix,
      messages (state (fst (run_with capability (submit st) w)))
      = messages st ++ suffix)
  /\ (exists suffix,
        messages (state (fst (run (submit st) w))) = messages st ++ suffix)
  /\ (forall args k,
        snd (run (submit st) w) = Suspended args k ->
        forall s w', exists suffix,
          messages (state (fst (resume k s w'))) = messages (state w') ++ suffix)
  /\ (forall value w', messages (state (onChange value w')) = messages (state w')).
Proof.
  intros w.
  pose proof (Appending_handleSubmit (input st) (isLoading st)) as Happ.
  split; [|split; [|split]].
  - intros capability. apply (run_with_extends capability Happ w).
  - apply (run_extends Happ w).
  - intros args k Hk s w'.
    destruct (run_extends Happ w) as [_ Hcont].
    apply (run_extends (Hcont args k Hk s) w').
  - reflexivity.
Qed.

(** C10.  When the call of an accepted submission is rejected with a
    value that is not an instance of [Error], the assistant entry added is
    exactly "Error: Failed to get response". *)
Theorem non_error_rejection_gives_fallback
  (st : State) (lg : list Observation)
  (capability : ChatCompletionArgs -> Settled) (v : JsValue) :
  trim (input st) <> [] ->
  isLoading st = false ->
  credential_missing = false ->
  capability (request (trim (input st))) = Rejected (NonError v) ->
  exists w2,
    run_with capability (submit st) (mkWorld st lg) = (w2, inr tt)
    /\ messages (state w2)
       = messages st ++ [mkMessage user (trim (input st));
                         mkMessage assistant (str "Error: Failed to get response")]
    /\ isLoading (state w2) = false.
Proof.
  intros Hp Hl Hc Hcap.
  assert (Hacc : rejects (input st) (isLoading st) = false)
    by (apply rejects_false_iff; auto).
  destruct (run_handleSubmit_suspends (input st) (isLoading st) (mkWorld st lg) Hacc Hc)
    as (k & Hrun & Hrej & _ & _).
  eexists. split; [|split].
  - eapply run_with_suspended; [exact Hrun|]. rewrite Hcap. apply Hrej.
  - simpl. now rewrite <- app_assoc.
  - reflexivity.
Qed.

(** A result of [undefined] or [null] is not a payload: the property read
    throws, and the [catch] block reports the engine's [TypeError]. *)
Lemma nullish_result_is_reported
  (st : State) (lg : list Observation)
  (capability : ChatCompletionArgs -> Settled) (r : JsValue) :
  trim (input st) <> [] ->
  isLoading st = false ->
  credential_missing = false ->
  capability (request (trim (input st))) = Fulfilled r ->
  r = VUndefined \/ r = VNull ->
  exists w2,
    run_with capability (submit st) (mkWorld st lg) = (w2, inr tt)
    /\ messages (state w2)
       = messages st ++ [mkMessage user (trim (input st));
                         mkMessage assistant
                           (str "Error: " ++ typeErrorMessage r (str "generated_text"))]
    /\ isLoading (state w2) = false.
Proof.
  intros Hp Hl Hc Hcap Hr.
  assert (Hacc : rejects (input st) (isLoading st) = false)
    by (apply rejects_false_iff; auto).
  destruct (run_handleSubmit_suspends (input st) (isLoading st) (mkWorld st lg) Hacc Hc)
    as (k & Hrun & _ & _ & Hnull).
  eexists. split; [|split].
  - eapply run_with_suspended; [exact Hrun|]. rewrite Hcap. apply Hnull, Hr.
  - simpl. now rewrite <- app_assoc.
  - reflexivity.
Qed.

(* ===================================================================== *)
(** ** White space around the prompt *)
(* ===================================================================== *)

Lemma blank_app (a b : jsstring) : blank (a ++ b) = blank a && blank b.
Proof. apply forallb_app. Qed.

Lemma blank_rev (s : jsstring) : blank (rev s) = blank s.
Proof.
  induction s as [| c s IH]; simpl; [reflexivity|].
  rewrite blank_app, IH. simpl. rewrite andb_true_r. apply andb_comm.
Qed.

Lemma trimStart_split (s : jsstring) :
  exists pre, s = pre ++ trimStart s /\ blank pre = true.
Proof.
  induction s as [| c s (pre & Hs & Hpre)]; simpl.
  - exists []. split; reflexivity.
  - destruct (is_trimmable c) eqn:Hc.
    + exists (c :: pre). simpl. rewrite Hc, Hpre. split; [congruence | reflexivity].
    + exists []. split; reflexivity.
Qed.

Lemma trimStart_head (s : jsstring) : is_trimmable (hd 0%N (trimStart s)) = false.
Proof.
  induction s as [| c s IH]; simpl; [reflexivity|].
  destruct (is_trimmable c) eqn:Hc; [exact IH | exact Hc].
Qed.

Lemma trimStart_fixed (s : jsstring) :
  is_trimmable (hd 0%N s) = false -> trimStart s = s.
Proof. destruct s as [| c s]; simpl; [reflexivity|]. now intros ->. Qed.

Lemma trimStart_nil_iff (s : jsstring) : trimStart s = [] <-> blank s = true.
Proof.
  induction s as [| c s IH]; simpl; [tauto|].
  destruct (is_trimmable c); simpl; [exact IH|].
  split; discriminate.
Qed.

Lemma last_rev (s : jsstring) (d : N) : last (rev s) d = hd d s.
Proof.
  destruct s as [| c s]; simpl; [reflexivity|]. apply last_last.
Qed.

Lemma hd_rev (s : jsstring) (d : N) : hd d (rev s) = last s d.
Proof. rewrite <- (rev_involutive s) at 2. symmetry. apply last_rev. Qed.

Lemma trimEnd_split (s : jsstring) :
  exists post, s = trimEnd s ++ post /\ blank post = true.
Proof.
  destruct (trimStart_split (rev s)) as (pre & Hs & Hpre).
  exists (rev pre). split.
  - unfold trimEnd. rewrite <- rev_app_distr, <- Hs. symmetry. apply rev_involutive.
  - now rewrite blank_rev.
Qed.

Lemma trimEnd_last (s : jsstring) : is_trimmable (last (trimEnd s) 0%N) = false.
Proof. unfold trimEnd. rewrite last_rev. apply trimStart_head. Qed.

Lemma trimEnd_fixed (s : jsstring) :
  is_trimmable (last s 0%N) = false -> trimEnd s = s.
Proof.
  intros H. unfold trimEnd. rewrite trimStart_fixed.
  - apply rev_involutive.
  - now rewrite hd_rev.
Qed.

Lemma trimEnd_nil_iff (s : jsstring) : trimEnd s = [] <-> blank s = true.
Proof.
  unfold trimEnd. rewrite <- blank_rev, <- trimStart_nil_iff.
  split; intros H.
  - apply (f_equal (@rev N)) in H. now rewrite rev_involutive in H.
  - now rewrite H.
Qed.

Lemma trimEnd_head (s : jsstring) :
  trimEnd s <> [] -> hd 0%N (trimEnd s) = hd 0%N s.
Proof.
  intros H. destruct (trimEnd_split s) as (post & Hs & _).
  rewrite Hs at 2. destruct (trimEnd s); [contradiction | reflexivity].
Qed.

Lemma trim_split (i : jsstring) :
  exists pre post,
    i = pre ++ trim i ++ post /\ blank pre = true /\ blank post = true.
Proof.
  destruct (trimStart_split i) as (pre & Hi & Hpre).
  destruct (trimEnd_split (trimStart i)) as (post & Ht & Hpost).
  exists pre, post. unfold trim. rewrite <- Ht. auto.
Qed.

Lemma trim_head (i : jsstring) : is_trimmable (hd 0%N (trim i)) = false.
Proof.
  unfold trim. destruct (trimEnd (trimStart i)) eqn:E; [reflexivity|].
  rewrite <- E, trimEnd_head by (rewrite E; discriminate).
  apply trimStart_head.
Qed.

Lemma trim_last (i : jsstring) : is_trimmable (last (trim i) 0%N) = false.
Proof. apply trimEnd_last. Qed.

Lemma trim_nil_iff (i : jsstring) : trim i = [] <-> blank i = true.
Proof.
  unfold trim. rewrite trimEnd_nil_iff. split; intros H.
  - apply trimStart_nil_iff.
    pose proof (trimStart_head i) as Hh.
    destruct (trimStart i) as [| c t]; [reflexivity|].
    simpl in H, Hh. rewrite Hh in H. discriminate.
  - apply trimStart_nil_iff in H. now rewrite H.
Qed.

Lemma trim_fixed (s : jsstring) :
  is_trimmable (hd 0%N s) = false -> is_trimmable (last s 0%N) = false ->
  trim s = s.
Proof.
  intros Hh Hl. unfold trim. rewrite (trimStart_fixed _ Hh). now apply trimEnd_fixed.
Qed.

Lemma trim_idempotent (i : jsstring) : trim (trim i) = trim i.
Proof. apply trim_fixed; [apply trim_head | apply trim_last]. Qed.

(* ===================================================================== *)
(** ** Complete runs of the handler *)
(* ===================================================================== *)

Lemma app_cons_neq {A : Type} (l r : list A) (x : A) : l ++ x :: r <> l.
Proof.
  intros H. apply (f_equal (@List.length A)) in H.
  rewrite length_app in H. simpl in H. lia.
Qed.



(** The world a complete run of an accepted call of the handler leaves,
    whatever world it starts from. *)
Lemma run_with_handleSubmit_accepted
  (capability : ChatCompletionArgs -> Settled) (i : jsstring) (l : bool) (w : World) :
  rejects i l = false ->
  exists reply extra,
    run_with capability (handleSubmit i l) w =
      ({| state := {| messages := messages (state w)
                                    ++ [mkMessage user (trim i);
                                        mkMessage assistant reply];
                      input := [];
                      isLoading := false |};
          log := log w ++ ObsPreventDefault :: extra |},
       inr tt)
    /\ calls extra = if credential_missing then [] else [request (trim i)].
Proof.
  intros Hacc. destruct credential_missing eqn:Hc.
  - do 2 eexists. split.
    + apply run_with_completed.
      rewrite (run_handleSubmit_unconfigured i l w Hacc Hc).
      unfold failed, sent. simpl. rewrite <- !app_assoc. reflexivity.
    + reflexivity.
  - destruct (run_handleSubmit_settles i l w Hacc Hc) as (k & Hrun & Hk).
    destruct (Hk (capability (request (trim i)))
                (observe (ObsChatCompletion (request (trim i))) (sent (trim i) w)))
      as (reply & extra & Hextra & Hres).
    exists reply, (ObsChatCompletion (request (trim i)) :: extra). split.
    + rewrite (run_with_suspended capability _ _ Hrun Hres).
      simpl. rewrite <- !app_assoc. reflexivity.
    + simpl. now rewrite Hextra.
Qed.

Lemma run_with_handleSubmit_rejected
  (capability : ChatCompletionArgs -> Settled) (i : jsstring) (l : bool) (w : World) :
  rejects i l = true ->
  run_with capability (handleSubmit i l) w = (observe ObsPreventDefault w, inr tt).
Proof.
  intros H. apply run_with_completed. now apply run_handleSubmit_rejected.
Qed.

Lemma rejects_blank (i : jsstring) (l : bool) : rejects i l = blank i || l.
Proof.
  unfold rejects. f_equal.
  destruct (blank i) eqn:E.
  - apply trim_nil_iff in E. now rewrite E.
  - destruct (trim i) eqn:T; [|reflexivity].
    apply trim_nil_iff in T. congruence.
Qed.

(* ===================================================================== *)
(** ** Further properties of the handler *)
(* ===================================================================== *)

(** X1.  A call of [handleSubmit] leaves the three cells as they were
    exactly when a request is pending or the input holds nothing but white
    space and line terminators (the empty input included); in every other
    case the cells change. *)
Theorem handler_ignores_exactly_blank_or_pending
  (st : State) (lg : list Observation)
  (capability : ChatCompletionArgs -> Settled) :
  state (fst (run_with capability (submit st) (mkWorld st lg))) = st
  <-> blank (input st) = true \/ isLoading st = true.
Proof.
  unfold submit.
  destruct (rejects (input st) (isLoading st)) eqn:Hr.
  - rewrite (run_with_handleSubmit_rejected capability _ _ (mkWorld st lg) Hr). simpl.
    rewrite rejects_blank in Hr. apply orb_true_iff in Hr. tauto.
  - destruct (run_with_handleSubmit_accepted capability _ _ (mkWorld st lg) Hr)
      as (reply & extra & -> & _). simpl.
    rewrite rejects_blank in Hr. apply orb_false_iff in Hr. destruct Hr as [Hb Hl].
    split.
    + intros H. apply (f_equal messages) in H. simpl in H.
      now apply app_cons_neq in H.
    + intros [H | H]; congruence.
Qed.

(** X2.  The user entry added by an accepted submission holds the typed
    text with the white space at both ends removed and nothing else
    changed: the input is that content between two runs of white space,
    and the content is non-empty, begins and ends with a code unit that
    is not white space, and is left as it is by a further [trim]. *)
Theorem user_entry_is_input_without_surrounding_space
  (st : State) (lg : list Observation) :
  blank (input st) = false ->
  isLoading st = false ->
  exists prompt pre post,
    nth_error (messages (state (fst (run (submit st) (mkWorld st lg)))))
              (List.length (messages st))
    = Some (mkMessage user prompt)
    /\ input st = pre ++ prompt ++ post
    /\ blank pre = true /\ blank post = true
    /\ prompt <> []
    /\ is_trimmable (hd 0%N prompt) = false
    /\ is_trimmable (last prompt 0%N) = false
    /\ trim prompt = prompt.
Proof.
  intros Hb Hl.
  assert (Hacc : rejects (input st) (isLoading st) = false)
    by (rewrite rejects_blank, Hb, Hl; reflexivity).
  destruct (trim_split (input st)) as (pre & post & Hsplit & Hpre & Hpost).
  exists (trim (input st)), pre, post.
  split; [|repeat split; auto using trim_head, trim_last, trim_idempotent].
  - unfold submit. destruct credential_missing eqn:Hc.
    + rewrite (run_handleSubmit_unconfigured _ _ (mkWorld st lg) Hacc Hc). simpl.
      rewrite <- app_assoc, nth_error_app2, Nat.sub_diag by lia. reflexivity.
    + destruct (run_handleSubmit_suspends _ _ (mkWorld st lg) Hacc Hc)
        as (k & -> & _). simpl.
      rewrite nth_error_app2, Nat.sub_diag by lia. reflexivity.
  - intros H. apply trim_nil_iff in H. congruence.
Qed.

(** X3.  Whatever values the handler captured and whatever world it runs
    in, [handleSubmit] never lets a fault escape: the synchronous part
    does not throw and the complete run ends normally.  It issues at most
    one call. *)
Theorem handleSubmit_never_throws
  (capability : ChatCompletionArgs -> Settled)
  (i : jsstring) (l : bool) (w : World) :
  snd (run_with capability (handleSubmit i l) w) = inr tt
  /\ (forall e, snd (run (handleSubmit i l) w) <> Uncaught e)
  /\ exists issued,
       calls (log (fst (run_with capability (handleSubmit i l) w)))
       = calls (log w) ++ issued
       /\ List.length issued <= 1.
Proof.
  destruct (rejects i l) eqn:Hr.
  - rewrite (run_with_handleSubmit_rejected capability _ _ w Hr),
            (run_handleSubmit_rejected _ _ w Hr).
    split; [reflexivity|]. split; [discriminate|].
    exists []. simpl. rewrite calls_app. simpl. split; [reflexivity | lia].
  - destruct (run_with_handleSubmit_accepted capability _ _ w Hr)
      as (reply & extra & -> & Hcalls).
    split; [reflexivity|]. split.
    + intros e. destruct credential_missing eqn:Hc.
      * rewrite (run_handleSubmit_unconfigured i l w Hr Hc). discriminate.
      * destruct (run_handleSubmit_suspends i l w Hr Hc) as (k & -> & _).
        discriminate.
    + exists (calls extra). simpl. split.
      * rewrite calls_app. reflexivity.
      * rewrite Hcalls. destruct credential_missing; simpl; lia.
Qed.

(** X6.  The Send button is enabled exactly when a submission on the
    rendered state is accepted, that is, when it adds the user entry: a
    click on an enabled button is never dropped, and the button is
    disabled whenever the handler would do nothing. *)
Theorem send_button_enabled_iff_submission_accepted
  (st : State) (lg : list Observation) :
  send_disabled (render st) = false
  <-> exists prompt rest,
        messages (state (fst (run (submit st) (mkWorld st lg))))
        = messages st ++ mkMessage user prompt :: rest.
Proof.
  change (send_disabled (render st)) with (rejects (input st) (isLoading st)).
  unfold submit. destruct (rejects (input st) (isLoading st)) eqn:Hr.
  - rewrite (run_handleSubmit_rejected _ _ (mkWorld st lg) Hr). simpl.
    split; [discriminate|]. intros (prompt & rest & H).
    symmetry in H. now apply app_cons_neq in H.
  - split; [intros _|reflexivity].
    destruct credential_missing eqn:Hc.
    + rewrite (run_handleSubmit_unconfigured _ _ (mkWorld st lg) Hr Hc). simpl.
      do 2 eexists. rewrite <- app_assoc. reflexivity.
    + destruct (run_handleSubmit_suspends _ _ (mkWorld st lg) Hr Hc)
        as (k & -> & _). simpl. do 2 eexists. reflexivity.
Qed.

(** X12.  An accepted submission issues a call exactly when the token is
    a non-empty string other than the placeholder: the undefined token,
    the empty token and 'your_token_here' issue none, and no other check
    is made on the token. *)
Theorem call_issued_iff_token_usable
  (st : State) (lg : list Observation)
  (capability : ChatCompletionArgs -> Settled) :
  blank (input st) = false ->
  isLoading st = false ->
  (calls (log (fst (run_with capability (submit st) (mkWorld st lg))))
   = calls lg ++ [request (trim (input st))]
   <-> exists t, apiToken = Some t /\ t <> [] /\ t <> str "your_token_here")
  /\ (calls (log (fst (run_with capability (submit st) (mkWorld st lg))))
      = calls lg
      <-> apiToken = None \/ apiToken = Some []
          \/ apiToken = Some (str "your_token_here")).
Proof.
  intros Hb Hl.
  assert (Hacc : rejects (input st) (isLoading st) = false)
    by (rewrite rejects_blank, Hb, Hl; reflexivity).
  unfold submit.
  destruct (run_with_handleSubmit_accepted capability _ _ (mkWorld st lg) Hacc)
    as (reply & extra & -> & Hcalls).
  simpl. rewrite calls_app. simpl. rewrite Hcalls.
  rewrite <- credential_missing_true_iff.
  assert (Husable : credential_missing = false <->
            exists t, apiToken = Some t /\ t <> [] /\ t <> str "your_token_here").
  { rewrite <- not_true_iff_false, credential_missing_true_iff.
    destruct apiToken as [t|].
    - split.
      + intros H. exists t. repeat split; intros ->; apply H; auto.
      + intros (t' & Ht & H1 & H2) [H | [H | H]];
          rewrite Ht in H; congruence.
    - split; [intros H; elim H; auto | intros (t' & Ht & _); discriminate]. }
  rewrite <- Husable.
  destruct credential_missing; split; split; try congruence; intros H.
  - rewrite app_nil_r in H. symmetry in H. now apply app_cons_neq in H.
  - now rewrite app_nil_r.
  - now apply app_cons_neq in H.
Qed.



(** X7.  What the form shows around an exchange.  While the call is in
    flight the busy indicator is shown, the textarea is emptied and
    disabled, the Send button is disabled and one more bubble is shown.
    Once the exchange has settled the indicator is gone and the textarea
    is enabled and empty, so the Send button stays disabled until text is
    typed; the empty-session hint is hidden from the submission on. *)
Theorem view_during_and_after_exchange
  (st : State) (lg : list Observation)
  (capability : ChatCompletionArgs -> Settled) :
  blank (input st) = false ->
  isLoading st = false ->
  let after := render (state (fst (run_with capability (submit st) (mkWorld st lg)))) in
  (busy_indicator after = false
   /\ textarea_disabled after = false
   /\ textarea_value after = []
   /\ send_disabled after = true
   /\ empty_hint after = false)
  /\ forall w1 args k,
       run (submit st) (mkWorld st lg) = (w1, Suspended args k) ->
       let during := render (state w1) in
       busy_indicator during = true
       /\ textarea_disabled during = true
       /\ textarea_value during = []
       /\ send_disabled during = true
       /\ empty_hint during = false.
Proof.
  intros Hb Hl after.
  assert (Hacc : rejects (input st) (isLoading st) = false)
    by (rewrite rejects_blank, Hb, Hl; reflexivity).
  split.
  - unfold after, submit.
    destruct (run_with_handleSubmit_accepted capability _ _ (mkWorld st lg) Hacc)
      as (reply & extra & -> & _).
    unfold render. simpl. repeat split.
    rewrite length_app. simpl. apply Nat.eqb_neq. lia.
  - intros w1 args k Hrun. unfold submit in Hrun.
    destruct credential_missing eqn:Hc.
    + rewrite (run_handleSubmit_unconfigured _ _ (mkWorld st lg) Hacc Hc) in Hrun.
      discriminate.
    + destruct (run_handleSubmit_suspends _ _ (mkWorld st lg) Hacc Hc)
        as (k' & Hrun' & _).
      rewrite Hrun' in Hrun. injection Hrun as <- _ _.
      unfold render. simpl. repeat split.
      rewrite length_app. simpl. apply Nat.eqb_neq. lia.
Qed.

(** X13.  The step taken at settlement works on the cells as they are
    then, not as they were at submission: it appends its one assistant
    entry to the transcript of that moment, leaves the input cell alone
    and resets [isLoading]. *)
Theorem settlement_appends_to_current_transcript
  (st : State) (lg : list Observation) :
  blank (input st) = false ->
  isLoading st = false ->
  credential_missing = false ->
  exists w1 k,
    run (submit st) (mkWorld st lg)
    = (w1, Suspended (request (trim (input st))) k)
    /\ forall s w', exists reply w2,
         resume k s w' = (w2, Completed tt)
         /\ messages (state w2)
            = messages (state w') ++ [mkMessage assistant reply]
         /\ input (state w2) = input (state w')
         /\ isLoading (state w2) = false.
Proof.
  intros Hb Hl Hc.
  assert (Hacc : rejects (input st) (isLoading st) = false)
    by (rewrite rejects_blank, Hb, Hl; reflexivity).
  destruct (run_handleSubmit_settles _ _ (mkWorld st lg) Hacc Hc)
    as (k & Hrun & Hk).
  eexists. exists k. split; [exact Hrun|].
  intros s w'. destruct (Hk s w') as (reply & extra & _ & Hres).
  exists reply. eexists. split; [exact Hres|]. simpl. auto.
Qed.

(* ===================================================================== *)
(** ** The bubbles *)
(* ===================================================================== *)

Lemma map_from_app {A B : Type} (f : A -> nat -> B) (l l' : list A) :
  forall n,
    map_from f n (l ++ l') = map_from f n l ++ map_from f (n + List.length l) l'.
Proof.
  induction l as [| a l IH]; intros n; simpl.
  - now rewrite Nat.add_0_r.
  - rewrite IH. do 3 f_equal. lia.
Qed.

Lemma map_map_from {A B C : Type} (g : B -> C) (f : A -> nat -> B) (l : list A) :
  forall n, map g (map_from f n l) = map_from (fun a i => g (f a i)) n l.
Proof.
  induction l as [| a l IH]; intros n; simpl; [reflexivity|]. now rewrite IH.
Qed.

Lemma map_from_index {A : Type} (l : list A) :
  forall n, map_from (fun _ i => i) n l = seq n (List.length l).
Proof.
  induction l as [| a l IH]; intros n; simpl; [reflexivity|]. now rewrite IH.
Qed.

Lemma map_from_const {A B : Type} (g : A -> B) (l : list A) :
  forall n, map_from (fun a _ => g a) n l = map g l.
Proof.
  induction l as [| a l IH]; intros n; simpl; [reflexivity|]. now rewrite IH.
Qed.

(** X10.  Bubbles already on screen do not change when the handler runs:
    after a complete run, and at the point where the call is issued, the
    bubbles rendered before (key, class, label and text) are the first
    bubbles rendered, and what is new comes after them. *)
Theorem rendered_bubbles_are_stable
  (st : State) (lg : list Observation)
  (capability : ChatCompletionArgs -> Settled) :
  (exists more,
      bubbles (render (state (fst (run_with capability (submit st) (mkWorld st lg)))))
      = bubbles (render st) ++ more)
  /\ (exists more,
        bubbles (render (state (fst (run (submit st) (mkWorld st lg)))))
        = bubbles (render st) ++ more).
Proof.
  pose proof (Appending_handleSubmit (input st) (isLoading st)) as Happ.
  split.
  - destruct (run_with_extends capability Happ (mkWorld st lg)) as [suffix Hs].
    unfold render, Array_map. simpl in *. unfold submit. rewrite Hs, map_from_app.
    eexists. reflexivity.
  - destruct (run_extends Happ (mkWorld st lg)) as [[suffix Hs] _].
    unfold render, Array_map. simpl in *. unfold submit. rewrite Hs, map_from_app.
    eexists. reflexivity.
Qed.

(** X11.  The bubbles show the transcript: one bubble per message, in
    transcript order, keyed by position from 0, with the message's content
    as text and the label "You" on user messages and "Muse" on assistant
    messages. *)
Theorem bubbles_show_the_transcript (st : State) :
  map text (bubbles (render st)) = map content (messages st)
  /\ map bubble_key (bubbles (render st)) = seq 0 (List.length (messages st))
  /\ map label (bubbles (render st))
     = map (fun m => match role m with
                     | user => str "You"
                     | assistant => str "Muse"
                     end) (messages st).
Proof.
  unfold render, Array_map. simpl. rewrite !map_map_from. simpl.
  split; [|split].
  - apply map_from_const.
  - apply map_from_index.
  - rewrite (map_from_const (fun m => if role_is_user m then str "You" else str "Muse")).
    apply map_ext. intros m. unfold role_is_user. destruct (role m); reflexivity.
Qed.

(* ===================================================================== *)
(** ** Sessions *)
(* ===================================================================== *)

Lemma exchange_state (capability : ChatCompletionArgs -> Settled)
  (value : jsstring) (w : World) :
  isLoading (state w) = false ->
  (blank value = true ->
   state (exchange capability value w)
   = {| messages := messages (state w); input := value; isLoading := false |})
  /\ (blank value = false ->
      exists reply,
        state (exchange capability value w)
        = {| messages := messages (state w)
                          ++ [mkMessage user (trim value); mkMessage assistant reply];
             input := [];
             isLoading := false |}).
Proof.
  intros Hl. unfold exchange, submit. cbv zeta.
  change (input (state (onChange value w))) with value.
  change (isLoading (state (onChange value w))) with (isLoading (state w)).
  rewrite Hl. split; intros Hb.
  - rewrite run_with_handleSubmit_rejected
      by (rewrite rejects_blank, Hb; reflexivity).
    simpl. now rewrite Hl.
  - destruct (run_with_handleSubmit_accepted capability value false
                (onChange value w)) as (reply & extra & -> & _).
    + rewrite rejects_blank, Hb. reflexivity.
    + exists reply. reflexivity.
Qed.

Lemma paired_app (l l' : list Message) :
  paired l = true -> paired (l ++ l') = paired l'.
Proof.
  revert l'.
  assert (H : forall n l, List.length l <= n ->
              forall l', paired l = true -> paired (l ++ l') = paired l').
  { induction n as [| n IH]; intros [| q [| a rest]] Hn l' Hp; simpl in *;
      try reflexivity; try discriminate; try lia.
    apply andb_true_iff in Hp. destruct Hp as [Hqa Hrest].
    rewrite Hqa. simpl. apply IH; [lia | exact Hrest]. }
  intros l'. apply (H (List.length l) l). lia.
Qed.

Lemma session_invariant
  (steps : list (jsstring * (ChatCompletionArgs -> Settled))) :
  forall w,
    isLoading (state w) = false ->
    isLoading (state (session steps w)) = false
    /\ (paired (messages (state w)) = true ->
        paired (messages (state (session steps w))) = true)
    /\ List.length (messages (state (session steps w)))
       = List.length (messages (state w))
         + 2 * List.length (filter (fun step => negb (blank (fst step))) steps)
    /\ exists suffix,
         messages (state (session steps w)) = messages (state w) ++ suffix.
Proof.
  induction steps as [| [value capability] steps IH]; intros w Hl; simpl.
  - repeat split; auto. exists []. now rewrite app_nil_r.
  - destruct (exchange_state capability value w Hl) as [Hblank Hsent].
    destruct (blank value) eqn:Hb; simpl.
    + specialize (Hblank eq_refl).
      destruct (IH (exchange capability value w)) as (H1 & H2 & H3 & H4).
      { now rewrite Hblank. }
      rewrite Hblank in H2, H3, H4. simpl in *. auto.
    + destruct (Hsent eq_refl) as [reply Hst].
      destruct (IH (exchange capability value w)) as (H1 & H2 & H3 & [suffix H4]).
      { now rewrite Hst. }
      rewrite Hst in H2, H3, H4. simpl in *.
      split; [exact H1|]. split; [|split].
      * intros Hp. apply H2. now rewrite paired_app.
      * rewrite H3, length_app. simpl. lia.
      * rewrite H4, <- app_assoc. eexists. reflexivity.
Qed.

(** X9.  The transcript of a session is made of pairs.  From the initial
    state, after any sequence of exchanges (a value typed, the form
    submitted, the call settled in any way), the transcript is a sequence
    of (user, assistant) pairs, one pair for each value that was not
    blank, and no request is left pending. *)
Theorem session_transcript_is_paired
  (steps : list (jsstring * (ChatCompletionArgs -> Settled))) :
  let w := session steps (mkWorld initial_state []) in
  paired (messages (state w)) = true
  /\ List.length (messages (state w))
     = 2 * List.length (filter (fun step => negb (blank (fst step))) steps)
  /\ isLoading (state w) = false.
Proof.
  destruct (session_invariant steps (mkWorld initial_state []) eq_refl)
    as (H1 & H2 & H3 & _).
  simpl. auto.
Qed.

(** X8.  The empty-session hint.  After a session started with no request
    pending the hint is shown exactly when it was shown at the start and
    every value submitted was blank: the first accepted submission hides
    it and nothing brings it back. *)
Theorem empty_hint_after_session
  (steps : list (jsstring * (ChatCompletionArgs -> Settled))) (w : World) :
  isLoading (state w) = false ->
  empty_hint (render (state (session steps w)))
  = empty_hint (render (state w)) && forallb (fun step => blank (fst step)) steps.
Proof.
  intros Hl. destruct (session_invariant steps w Hl) as (_ & _ & Hlen & _).
  unfold render. simpl. rewrite Hlen.
  assert (Hcount : forallb (fun step => blank (fst step)) steps
                   = Nat.eqb (List.length
                       (filter (fun step : jsstring * (ChatCompletionArgs -> Settled) =>
                                  negb (blank (fst step))) steps)) 0).
  { clear. induction steps as [| step steps IH]; simpl; [reflexivity|].
    destruct (blank (fst step)); simpl; [exact IH | reflexivity]. }
  rewrite Hcount.
  destruct (List.length (messages (state w))); simpl.
  - destruct (List.length (filter _ steps)); reflexivity.
  - reflexivity.
Qed.

End App.

(* ===================================================================== *)
(** ** The properties on the sample sessions *)
(* ===================================================================== *)

Lemma hello_state_accepted :
  trim (input hello_state) <> [] /\ isLoading hello_state = false.
Proof. split; [cbv; discriminate | reflexivity]. Defined.

Lemma story_state_accepted :
  trim (input story_state) <> [] /\ isLoading story_state = false.
Proof. split; [cbv; discriminate | reflexivity]. Defined.

Lemma submit_appends_user_then_one_assistant_witness :
  exists reply w2,
    run_with story_capability
      (submit v8_type_error_message sample_token story_state)
      (mkWorld story_state [])
    = (w2, inr tt)
    /\ messages (state w2)
       = [mkMessage user (str "Hi"); mkMessage assistant (str "Welcome");
          mkMessage user (str "Tell me a story"); mkMessage assistant reply].
Proof.
  exact (proj1 (submit_appends_user_then_one_assistant
                  v8_type_error_message sample_token story_state []
                  (proj1 story_state_accepted) (proj2 story_state_accepted))
               story_capability).
Defined.

Lemma settlement_returns_to_idle_witness :
  exists w2,
    run_with unavailable_capability
      (submit v8_type_error_message sample_token hello_state)
      (mkWorld hello_state [])
    = (w2, inr tt)
    /\ isLoading (state w2) = false
    /\ forall prompt, trim prompt <> [] ->
         let w3 := onChange prompt w2 in
         rejects (input (state w3)) (isLoading (state w3)) = false.
Proof.
  exact (proj1 (settlement_returns_to_idle
                  v8_type_error_message sample_token hello_state []
                  (proj1 hello_state_accepted) (proj2 hello_state_accepted))
               unavailable_capability).
Defined.

Lemma submit_rejected_is_noop_witness :
  run (submit v8_type_error_message sample_token blank_state)
      (mkWorld blank_state [])
  = (mkWorld blank_state [ObsPreventDefault], Completed tt).
Proof.
  exact (proj1 (submit_rejected_is_noop
                  v8_type_error_message sample_token blank_state []
                  (or_introl eq_refl))).
Defined.

Lemma missing_credential_reports_without_call_witness :
  run (submit v8_type_error_message None hello_state) (mkWorld hello_state [])
  = ({| state :=
          {| messages :=
               [mkMessage user (str "Hello");
                mkMessage assistant
                  (str "Error: Please set your Hugging Face API token in the .env file")];
             input := [];
             isLoading := false |};
        log :=
          [ObsPreventDefault;
           ObsConsoleError (str "Error:")
             (ErrorInstance
                (str "Please set your Hugging Face API token in the .env file"))] |},
     Completed tt).
Proof.
  exact (proj1 (@missing_credential_reports_without_call
                  v8_type_error_message None hello_state []
                  (proj1 hello_state_accepted) (proj2 hello_state_accepted)
                  (or_introl eq_refl))).
Defined.

Lemma rejected_call_reports_message_witness :
  exists w2,
    run_with unavailable_capability
      (submit v8_type_error_message sample_token hello_state)
      (mkWorld hello_state [])
    = (w2, inr tt)
    /\ messages (state w2)
       = [mkMessage user (str "Hello");
          mkMessage assistant (str "Error: Service unavailable")]
    /\ isLoading (state w2) = false
    /\ forall prompt, trim prompt <> [] ->
         let w3 := onChange prompt w2 in
         rejects (input (state w3)) (isLoading (state w3)) = false.
Proof.
  exact (@rejected_call_reports_message
           v8_type_error_message sample_token hello_state []
           unavailable_capability (str "Service unavailable")
           (proj1 hello_state_accepted) (proj2 hello_state_accepted)
           eq_refl eq_refl).
Defined.

Lemma unusable_generated_text_gives_placeholder_witness :
  exists w2,
    run_with choices_capability
      (submit v8_type_error_message sample_token hello_state)
      (mkWorld hello_state [])
    = (w2, inr tt)
    /\ messages (state w2)
       = [mkMessage user (str "Hello");
          mkMessage assistant (str "No response generated")]
    /\ starts_with (str "Error: ") (str "No response generated") = false
    /\ log w2 = [ObsPreventDefault; ObsChatCompletion (request (str "Hello"))]
    /\ isLoading (state w2) = false.
Proof.
  refine (proj1 (@unusable_generated_text_gives_placeholder
                   v8_type_error_message sample_token hello_state []
                   choices_capability (VObject [(str "choices", VObject [])])
                   (proj1 hello_state_accepted) (proj2 hello_state_accepted)
                   eq_refl eq_refl _) _ _).
  - intros g H. discriminate H.
  - discriminate.
  - discriminate.
Defined.

(** C6 as first stated fails on a result of [null]: the payload has no
    string [generated_text], and the entry added under V8 is an "Error: "
    entry, not "No response generated". *)
Lemma null_payload_is_reported_as_error :
  (trim (input hello_state) <> [] /\ isLoading hello_state = false)
  /\ credential_missing sample_token = false
  /\ null_capability (request (trim (input hello_state))) = Fulfilled VNull
  /\ (forall g, read_generated_text v8_type_error_message VNull <> Ret (VString g))
  /\ run_with null_capability
       (submit v8_type_error_message sample_token hello_state)
       (mkWorld hello_state [])
     = ({| state :=
             {| messages :=
                  [mkMessage user (str "Hello");
                   mkMessage assistant
                     (str "Error: Cannot read properties of null (reading 'generated_text')")];
                input := [];
                isLoading := false |};
           log :=
             [ObsPreventDefault;
              ObsChatCompletion (request (str "Hello"));
              ObsConsoleError (str "Error:")
                (ErrorInstance
                   (str "Cannot read properties of null (reading 'generated_text')"))] |},
        inr tt)
  /\ starts_with (str "Error: ")
       (str "Error: Cannot read properties of null (reading 'generated_text')")
     = true
  /\ str "Error: Cannot read properties of null (reading 'generated_text')"
     <> str "No response generated".
Proof.
  split; [exact hello_state_accepted|].
  split; [reflexivity|]. split; [reflexivity|].
  split; [intros g H; discriminate H|].
  split; [reflexivity|]. split; [reflexivity|].
  discriminate.
Qed.

Lemma generated_text_is_the_reply_witness :
  exists w2,
    run_with story_capability
      (submit v8_type_error_message sample_token story_state)
      (mkWorld story_state [])
    = (w2, inr tt)
    /\ messages (state w2)
       = [mkMessage user (str "Hi"); mkMessage assistant (str "Welcome");
          mkMessage user (str "Tell me a story");
          mkMessage assistant (str "Once upon a time...")]
    /\ isLoading (state w2) = false.
Proof.
  exact (@generated_text_is_the_reply
           v8_type_error_message sample_token story_state [] story_capability
           (VObject [(str "generated_text", VString (str "Once upon a time..."))])
           (str "Once upon a time...")
           (proj1 story_state_accepted) (proj2 story_state_accepted)
           eq_refl eq_refl eq_refl).
Defined.

Lemma request_is_single_turn_with_fixed_parameters_witness :
  calls (log (fst (run_with story_capability
                     (submit v8_type_error_message sample_token story_state)
                     (mkWorld story_state []))))
  = [ {| model := str "Domver345/lightnovel_ai_proto";
         chat_messages :=
           [ {| msg_role := str "user"; msg_content := str "Tell me a story" |} ];
         parameters := {| max_new_tokens := 500;
                          temperature := 7 # 10;
                          top_p := 95 # 100 |} |} ].
Proof.
  exact (request_is_single_turn_with_fixed_parameters
           v8_type_error_message sample_token story_state [] story_capability
           (proj1 story_state_accepted) (proj2 story_state_accepted)).
Defined.

Lemma non_error_rejection_gives_fallback_witness :
  exists w2,
    run_with string_capability
      (submit v8_type_error_message sample_token hello_state)
      (mkWorld hello_state [])
    = (w2, inr tt)
    /\ messages (state w2)
       = [mkMessage user (str "Hello");
          mkMessage assistant (str "Error: Failed to get response")]
    /\ isLoading (state w2) = false.
Proof.
  exact (@non_error_rejection_gives_fallback
           v8_type_error_message sample_token hello_state [] string_capability
           (VString (str "timeout"))
           (proj1 hello_state_accepted) (proj2 hello_state_accepted)
           eq_refl eq_refl).
Defined.

(** The other rejected submission: a prompt typed while a request is in
    flight. *)
Example pending_submission_changes_nothing :
  run (submit v8_type_error_message sample_token pending_state)
      (mkWorld pending_state [])
  = (mkWorld pending_state [ObsPreventDefault], Completed tt).
Proof. reflexivity. Qed.

(** [trim] strips the Unicode white space and line terminators on both
    sides and nothing inside. *)
Example trim_sample :
  trim ([0xFEFF; 0x09]%N ++ str "a b" ++ [0x3000; 0x0D; 0x0A]%N) = str "a b".
Proof. reflexivity. Qed.

(** A result of [null] runs into the [catch] block under V8. *)
Example null_result_under_v8 :
  messages (state (fst (run_with (fun _ => Fulfilled VNull)
                          (submit v8_type_error_message sample_token hello_state)
                          (mkWorld hello_state []))))
  = [mkMessage user (str "Hello");
     mkMessage assistant
       (str "Error: Cannot read properties of null (reading 'generated_text')")].
Proof. reflexivity. Qed.

(* ===================================================================== *)
(** ** The further properties on the sample sessions *)
(* ===================================================================== *)

Lemma user_entry_is_input_without_surrounding_space_witness :
  exists prompt pre post,
    nth_error
      (messages (state (fst (run (submit v8_type_error_message sample_token hello_state)
                                 (mkWorld hello_state []))))) 0
    = Some (mkMessage user prompt)
    /\ str "  Hello " = pre ++ prompt ++ post
    /\ blank pre = true /\ blank post = true
    /\ prompt <> []
    /\ is_trimmable (hd 0%N prompt) = false
    /\ is_trimmable (last prompt 0%N) = false
    /\ trim prompt = prompt.
Proof.
  exact (@user_entry_is_input_without_surrounding_space
           v8_type_error_message sample_token hello_state [] eq_refl eq_refl).
Defined.


Lemma view_during_and_after_exchange_witness :
  let after :=
    render (state (fst (run_with story_capability
                          (submit v8_type_error_message sample_token story_state)
                          (mkWorld story_state [])))) in
  busy_indicator after = false
  /\ textarea_disabled after = false
  /\ textarea_value after = []
  /\ send_disabled after = true
  /\ empty_hint after = false.
Proof.
  exact (proj1 (@view_during_and_after_exchange
                  v8_type_error_message sample_token story_state []
                  story_capability eq_refl eq_refl)).
Defined.

Lemma empty_hint_after_session_witness :
  empty_hint (render (state (session v8_type_error_message sample_token
                               sample_steps (mkWorld initial_state []))))
  = false.
Proof.
  exact (@empty_hint_after_session
           v8_type_error_message sample_token sample_steps
           (mkWorld initial_state []) eq_refl).
Defined.

Lemma call_issued_iff_token_usable_witness :
  calls (log (fst (run_with story_capability
                     (submit v8_type_error_message sample_token hello_state)
                     (mkWorld hello_state []))))
  = [request (str "Hello")].
Proof.
  apply (proj2 (proj1 (@call_issued_iff_token_usable
                         v8_type_error_message sample_token hello_state []
                         story_capability eq_refl eq_refl))).
  exists (str "hf_sample"). split; [reflexivity|]. split; discriminate.
Defined.

Lemma settlement_appends_to_current_transcript_witness :
  exists w1 k,
    run (submit v8_type_error_message sample_token hello_state)
        (mkWorld hello_state [])
    = (w1, Suspended (request (str "Hello")) k)
    /\ forall s w', exists reply w2,
         resume k s w' = (w2, Completed tt)
         /\ messages (state w2)
            = messages (state w') ++ [mkMessage assistant reply]
         /\ input (state w2) = input (state w')
         /\ isLoading (state w2) = false.
Proof.
  exact (@settlement_appends_to_current_transcript
           v8_type_error_message sample_token hello_state []
           eq_refl eq_refl eq_refl).
Defined.

(** The sample session leaves two pairs and the hint hidden. *)
Example sample_session_transcript :
  messages (state (session v8_type_error_message sample_token sample_steps
                     (mkWorld initial_state [])))
  = [mkMessage user (str "Tell me a story");
     mkMessage assistant (str "Once upon a time...");
     mkMessage user (str "again");
     mkMessage assistant (str "Error: Service unavailable")].
Proof. reflexivity. Qed.

(** Shift+Enter and a letter key leave the world alone; Enter submits. *)
Example shift_enter_does_nothing :
  run (onKeyDown v8_type_error_message sample_token shift_enter_key
         (input hello_state) (isLoading hello_state))
      (mkWorld hello_state [])
  = (mkWorld hello_state [], Completed tt).
Proof. reflexivity. Qed.

Example enter_submits :
  messages (state (fst (run (onKeyDown v8_type_error_message sample_token enter_key
                               (input hello_state) (isLoading hello_state))
                            (mkWorld hello_state []))))
  = [mkMessage user (str "Hello")].
Proof. reflexivity. Qed.
